(** * goog.i18n.BidiFormatter: a shallow embedding and its specification

    The formatter of [closure/goog/i18n/bidiformatter.js] decides how a run
    of text of some directionality is embedded in a context of a given
    directionality: which [dir] attribute to emit, whether to wrap in a
    [span] or in Unicode embedding characters, and whether a trailing
    directional mark is needed.

    The methods are embedded in a state monad over the two private fields
    of the object ([contextDir_], [alwaysSpan_]); every [this.contextDir_]
    of the source is a read of the state, every assignment a write.  The
    modules the file requires but does not define ([goog.i18n.bidi],
    [goog.html.SafeHtml]) are interfaces here. *)

From Stdlib Require Import String Ascii ZArith List Bool Lia.
From ExtLib Require Import Structures.Monad Structures.MonadState.
From ExtLib Require Import Data.Monads.StateMonad.
Import ListNotations.
Import MonadNotation.

Local Open Scope string_scope.
Local Open Scope monad_scope.

(* ===================================================================== *)
(** ** JavaScript values the formatter handles *)
(* ===================================================================== *)

Module Js.

(** An optional boolean argument ([boolean=] in the annotations), which
    a caller may omit ([undefined]) or pass as [null]. *)
Inductive OptBool : Type :=
| Undefined
| Null
| Bool (b : bool).

(** ToBoolean: [undefined], [null] and [false] are falsy. *)
Definition truthy (v : OptBool) : bool :=
  match v with
  | Bool b => b
  | Undefined | Null => false
  end.

(** [v == undefined]: loose equality, true for [undefined] and [null]
    only. *)
Definition eq_undefined (v : OptBool) : bool :=
  match v with
  | Undefined | Null => true
  | Bool _ => false
  end.

(** [a || b] at the value level: [a] when it is truthy, [b] otherwise. *)
Definition or (a b : OptBool) : OptBool :=
  if truthy a then a else b.

(** [Array.prototype.push] on an array of strings. *)
Definition push (arr : list string) (x : string) : list string :=
  arr ++ [x].

(** [arr.join('')]. *)
Definition join (arr : list string) : string :=
  String.concat EmptyString arr.

End Js.

(* ===================================================================== *)
(** ** goog.i18n.bidi: what the formatter uses of it *)
(* ===================================================================== *)

Module bidi.

(** Modelled from the spec: the enum [goog.i18n.bidi.Dir], which is not
    defined in the formatter's file.  "Direction: enumerated value over
    LTR, RTL, NEUTRAL.  Numeric ordering convention: LTR > 0, RTL < 0,
    NEUTRAL = 0". *)
Inductive Dir : Type :=
| LTR
| RTL
| NEUTRAL.

(** Modelled from the spec: the number a [Dir] constant is, by the sign
    convention above (the library's constants are 1, -1 and 0). *)
Definition value (d : Dir) : Z :=
  match d with
  | LTR => 1
  | RTL => -1
  | NEUTRAL => 0
  end.

Definition Dir_eqb (a b : Dir) : bool :=
  match a, b with
  | LTR, LTR | RTL, RTL | NEUTRAL, NEUTRAL => true
  | _, _ => false
  end.

(** A value of type [?goog.i18n.bidi.Dir]: [None] is [null]. *)
Definition NullableDir : Type := option Dir.

(** [Number(dir)]: a [Dir] is its number, [null] converts to 0. *)
Definition Number (d : NullableDir) : Z :=
  match d with
  | Some d => value d
  | None => 0
  end.

(** [a == b] on nullable directions: two numbers are compared as
    numbers, [null] equals [null] alone. *)
Definition eq (a b : NullableDir) : bool :=
  match a, b with
  | Some x, Some y => Dir_eqb x y
  | None, None => true
  | _, _ => false
  end.

(** The argument of the constructor and of [setContextDir]:
    [goog.i18n.bidi.Dir|number|boolean|null].  A [Dir] constant is a
    number. *)
Inductive DirInput : Type :=
| InNumber (n : Z)
| InBoolean (b : bool)
| InNull.

Definition ofDir (d : Dir) : DirInput := InNumber (value d).

(** Modelled from the spec: [goog.i18n.bidi.toDir], which the constructor
    and [setContextDir] call and which is not defined in the formatter's
    file.  "A number (positive = LTR, negative = RTL, 0 = unknown); a
    boolean (true = RTL, false = LTR); a null for unknown
    directionality"; with [opt_noNeutral], "NEUTRAL from external input
    is normalized to UNKNOWN". *)
Definition toDir (givenDir : DirInput) (opt_noNeutral : bool) : NullableDir :=
  match givenDir with
  | InNumber n =>
      if (0 <? n)%Z then Some LTR
      else if (n <? 0)%Z then Some RTL
      else if opt_noNeutral then None else Some NEUTRAL
  | InNull => None
  | InBoolean b => if b then Some RTL else Some LTR
  end.

(** [goog.i18n.bidi.Format]: the five invisible characters the formatter
    emits.  The file only names them. *)
Class Format : Type := {
  LRE : string;
  RLE : string;
  PDF : string;
  LRM : string;
  RLM : string
}.

(** The direction estimator of [goog.i18n.bidi], referenced by the
    formatter and defined elsewhere. *)
Class Estimator : Type := {
  estimateDirection : string -> Js.OptBool -> Dir;
  endsWithRtl : string -> Js.OptBool -> bool;
  endsWithLtr : string -> Js.OptBool -> bool
}.

(** [goog.i18n.bidi.RIGHT] and [goog.i18n.bidi.LEFT]. *)
Definition RIGHT : string := "right".
Definition LEFT : string := "left".

End bidi.

(* ===================================================================== *)
(** ** goog.html.SafeHtml: the opaque markup value *)
(* ===================================================================== *)

Module SafeHtml.

(** The three operations the formatter calls.  An attribute whose value
    is [None] ([undefined] in the source) is one [create] leaves out. *)
Class Ops (T : Type) : Type := {
  unwrap : T -> string;
  create : string -> list (string * option string) -> T -> T;
  concat : T -> string -> T
}.

End SafeHtml.

(* ===================================================================== *)
(** ** goog.i18n.BidiFormatter *)
(* ===================================================================== *)

Module BidiFormatter.

Import bidi.

(** The two private fields of an instance. *)
Record t : Type := mk {
  contextDir_ : NullableDir;
  alwaysSpan_ : bool
}.

(** A method body: a computation over the fields of [this]. *)
Definition M : Type -> Type := state t.

Definition this_contextDir_ : M NullableDir := gets contextDir_.
Definition this_alwaysSpan_ : M bool := gets alwaysSpan_.

Definition assign_contextDir_ (v : NullableDir) : M unit :=
  this <- get ;; put (mk v (alwaysSpan_ this)).

Definition assign_alwaysSpan_ (v : bool) : M unit :=
  this <- get ;; put (mk (contextDir_ this) v).

(** Short-circuit [a && b] and [a || b] in a condition: the right operand
    runs only when the left one does not decide. *)
Definition andM (a b : M bool) : M bool :=
  x <- a ;; if x then b else ret false.

Definition orM (a b : M bool) : M bool :=
  x <- a ;; if x then ret true else b.

(** The result of a call and the object after it. *)
Definition result {A : Type} (m : M A) (this : t) : A := evalState m this.
Definition after {A : Type} (m : M A) (this : t) : t := execState m this.

(** [new goog.i18n.BidiFormatter(contextDir, opt_alwaysSpan)]. *)
Definition new (contextDir : DirInput) (opt_alwaysSpan : Js.OptBool) : t :=
  mk (toDir contextDir true) (Js.truthy opt_alwaysSpan).

Definition getContextDir : M NullableDir := this_contextDir_.

Definition getAlwaysSpan : M bool := this_alwaysSpan_.

Definition setContextDir (contextDir : DirInput) : M unit :=
  assign_contextDir_ (toDir contextDir true).

Definition setAlwaysSpan (alwaysSpan : bool) : M unit :=
  assign_alwaysSpan_ alwaysSpan.

(** [Number(dir1) * Number(dir2) < 0]. *)
Definition areDirectionalitiesOpposite_ (dir1 dir2 : NullableDir) : bool :=
  (Number dir1 * Number dir2 <? 0)%Z.

(** The attribute strings ['dir="rtl"'] and ['dir="ltr"']. *)
Definition dquote : string := String "034"%char EmptyString.
Definition attr_rtl : string := "dir=" ++ dquote ++ "rtl" ++ dquote.
Definition attr_ltr : string := "dir=" ++ dquote ++ "ltr" ++ dquote.

Section Methods.

Context {F : Format} {E : Estimator}.
Context {Html : Type} {H : SafeHtml.Ops Html}.

Definition dirResetIfNeeded_ (str : string) (dir : Dir)
    (opt_isHtml opt_dirReset : Js.OptBool) : M string :=
  c <- andM (ret (Js.truthy opt_dirReset))
         (orM
            (orM
               (ctx <- this_contextDir_ ;;
                ret (areDirectionalitiesOpposite_ (Some dir) ctx))
               (andM (ctx <- this_contextDir_ ;; ret (eq ctx (Some LTR)))
                     (ret (endsWithRtl str opt_isHtml))))
            (andM (ctx <- this_contextDir_ ;; ret (eq ctx (Some RTL)))
                  (ret (endsWithLtr str opt_isHtml)))) ;;
  if c then
    ctx <- this_contextDir_ ;;
    ret (if eq ctx (Some LTR) then LRM else RLM)
  else
    ret EmptyString.

Definition knownDirAttrValue (dir : Dir) : M string :=
  resolvedDir <- (if Dir_eqb dir NEUTRAL then this_contextDir_
                  else ret (Some dir)) ;;
  ret (if eq resolvedDir (Some RTL) then "rtl" else "ltr").

Definition dirAttrValue (str : string) (opt_isHtml : Js.OptBool) : M string :=
  knownDirAttrValue (estimateDirection str opt_isHtml).

Definition knownDirAttr (dir : Dir) : M string :=
  ctx <- this_contextDir_ ;;
  if negb (eq (Some dir) ctx) then
    ret (if Dir_eqb dir RTL then attr_rtl
         else if Dir_eqb dir LTR then attr_ltr else EmptyString)
  else
    ret EmptyString.

Definition dirAttr (str : string) (opt_isHtml : Js.OptBool) : M string :=
  knownDirAttr (estimateDirection str opt_isHtml).

Definition spanWrapWithKnownDir_ (dir : Dir) (html : Html)
    (opt_dirReset : Js.OptBool) : M Html :=
  let opt_dirReset :=
    Js.or opt_dirReset (Js.Bool (Js.eq_undefined opt_dirReset)) in
  dirCondition <- andM (ret (negb (Dir_eqb dir NEUTRAL)))
                    (ctx <- this_contextDir_ ;;
                     ret (negb (eq (Some dir) ctx))) ;;
  wrap <- orM this_alwaysSpan_ (ret dirCondition) ;;
  let result :=
    if wrap then
      let dirAttribute :=
        if dirCondition
        then Some (if Dir_eqb dir RTL then "rtl" else "ltr")
        else None in
      SafeHtml.create "span" [("dir", dirAttribute)] html
    else html in
  let str := SafeHtml.unwrap html in
  reset <- dirResetIfNeeded_ str dir (Js.Bool true) opt_dirReset ;;
  ret (SafeHtml.concat result reset).

Definition spanWrapSafeHtmlWithKnownDir (dir : NullableDir) (html : Html)
    (opt_dirReset : Js.OptBool) : M Html :=
  let dir :=
    match dir with
    | None => estimateDirection (SafeHtml.unwrap html) (Js.Bool true)
    | Some d => d
    end in
  spanWrapWithKnownDir_ dir html opt_dirReset.

Definition spanWrapSafeHtml (html : Html) (opt_dirReset : Js.OptBool) : M Html :=
  spanWrapSafeHtmlWithKnownDir None html opt_dirReset.

Definition unicodeWrapWithKnownDir_ (dir : Dir) (str : string)
    (opt_isHtml opt_dirReset : Js.OptBool) : M string :=
  let opt_dirReset :=
    Js.or opt_dirReset (Js.Bool (Js.eq_undefined opt_dirReset)) in
  let result := [] in
  c <- andM (ret (negb (Dir_eqb dir NEUTRAL)))
         (ctx <- this_contextDir_ ;; ret (negb (eq (Some dir) ctx))) ;;
  let result :=
    if c then
      let result := Js.push result (if Dir_eqb dir RTL then RLE else LRE) in
      let result := Js.push result str in
      Js.push result PDF
    else
      Js.push result str in
  reset <- dirResetIfNeeded_ str dir opt_isHtml opt_dirReset ;;
  let result := Js.push result reset in
  ret (Js.join result).

Definition unicodeWrapWithKnownDir (dir : NullableDir) (str : string)
    (opt_isHtml opt_dirReset : Js.OptBool) : M string :=
  let dir :=
    match dir with
    | None => estimateDirection str opt_isHtml
    | Some d => d
    end in
  unicodeWrapWithKnownDir_ dir str opt_isHtml opt_dirReset.

Definition unicodeWrap (str : string) (opt_isHtml opt_dirReset : Js.OptBool)
    : M string :=
  unicodeWrapWithKnownDir None str opt_isHtml opt_dirReset.

Definition markAfterKnownDir (dir : NullableDir) (str : string)
    (opt_isHtml : Js.OptBool) : M string :=
  let dir :=
    match dir with
    | None => estimateDirection str opt_isHtml
    | Some d => d
    end in
  dirResetIfNeeded_ str dir opt_isHtml (Js.Bool true).

Definition markAfter (str : string) (opt_isHtml : Js.OptBool) : M string :=
  markAfterKnownDir None str opt_isHtml.

Definition mark : M string :=
  ctx <- this_contextDir_ ;;
  ret (match ctx with
       | Some LTR => LRM
       | Some RTL => RLM
       | _ => EmptyString
       end).

Definition startEdge : M string :=
  ctx <- this_contextDir_ ;;
  ret (if eq ctx (Some RTL) then RIGHT else LEFT).

Definition endEdge : M string :=
  ctx <- this_contextDir_ ;;
  ret (if eq ctx (Some RTL) then LEFT else RIGHT).

End Methods.

End BidiFormatter.

(* ===================================================================== *)
(** ** A stand-in for the collaborators, to run the formatter on inputs *)
(* ===================================================================== *)

Module Standin.

Import bidi.

Definition utf8_3 (a b c : ascii) : string :=
  String a (String b (String c EmptyString)).

(** U+202A, U+202B, U+202C, U+200E and U+200F, as UTF-8. *)
#[export] Instance format : Format := {|
  LRE := utf8_3 "226" "128" "170";
  RLE := utf8_3 "226" "128" "171";
  PDF := utf8_3 "226" "128" "172";
  LRM := utf8_3 "226" "128" "142";
  RLM := utf8_3 "226" "128" "143"
|}.

(** A toy alphabet, as bidi test suites write it: a lower-case ASCII
    letter is strongly LTR, an upper-case one stands for a strongly RTL
    letter, anything else is neutral. *)
Definition strong (c : ascii) : NullableDir :=
  let n := nat_of_ascii c in
  if (97 <=? n)%nat && (n <=? 122)%nat then Some LTR
  else if (65 <=? n)%nat && (n <=? 90)%nat then Some RTL
  else None.

(** The last strong letter of a text, if any. *)
Fixpoint exitDir (s : string) : NullableDir :=
  match s with
  | EmptyString => None
  | String c rest =>
      match exitDir rest with
      | Some d => Some d
      | None => strong c
      end
  end.

Fixpoint count (d : Dir) (s : string) : nat :=
  match s with
  | EmptyString => 0
  | String c rest =>
      (if eq (strong c) (Some d) then 1 else 0) + count d rest
  end.

(** The toy estimator: the majority of the strong letters, NEUTRAL when
    there is none. *)
#[export] Instance estimator : Estimator := {|
  estimateDirection := fun s _ =>
    if (count LTR s + count RTL s =? 0)%nat then NEUTRAL
    else if (count LTR s <? count RTL s)%nat then RTL else LTR;
  endsWithRtl := fun s _ => eq (exitDir s) (Some RTL);
  endsWithLtr := fun s _ => eq (exitDir s) (Some LTR)
|}.

Definition attribute (a : string * option string) : string :=
  match snd a with
  | Some v => " " ++ fst a ++ "='" ++ v ++ "'"
  | None => EmptyString
  end.

(** Markup as the text of the markup. *)
#[export] Instance html : SafeHtml.Ops string := {|
  SafeHtml.unwrap := fun h => h;
  SafeHtml.create := fun tag attrs content =>
    "<" ++ tag ++ String.concat EmptyString (map attribute attrs) ++ ">"
        ++ content ++ "</" ++ tag ++ ">";
  SafeHtml.concat := fun h s => h ++ s
|}.

End Standin.

(* ===================================================================== *)
(** ** The rules of the specification, in its words *)
(* ===================================================================== *)

Module Rules.

Import bidi BidiFormatter.

Section Rules.

  Context {F : Format} {E : Estimator}.

(** The mark of a context: LRM in LTR, RLM in RTL, none otherwise. *)
Definition contextMark (ctx : NullableDir) : string :=
  match ctx with
  | Some LTR => LRM
  | Some RTL => RLM
  | _ => EmptyString
  end.

(** The reset rule: the reset is asked for, and the overall direction is
    opposite to the context, or the text exits in the direction opposite
    to the context. *)
Definition resetNeeded (ctx : NullableDir) (str : string) (dir : Dir)
    (isHtml : Js.OptBool) (dirReset : bool) : Prop :=
  dirReset = true /\
  (areDirectionalitiesOpposite_ (Some dir) ctx = true \/
   (ctx = Some LTR /\ endsWithRtl str isHtml = true) \/
   (ctx = Some RTL /\ endsWithLtr str isHtml = true)).

(** The same rule as a test. *)
Definition resetNeededb (ctx : NullableDir) (str : string) (dir : Dir)
    (isHtml : Js.OptBool) (dirReset : bool) : bool :=
  dirReset &&
  (areDirectionalitiesOpposite_ (Some dir) ctx
   || (eq ctx (Some LTR) && endsWithRtl str isHtml)
   || (eq ctx (Some RTL) && endsWithLtr str isHtml)).

(** The trailing mark of the rule. *)
Definition trailingMark (ctx : NullableDir) (str : string) (dir : Dir)
    (isHtml : Js.OptBool) (dirReset : bool) : string :=
  if resetNeededb ctx str dir isHtml dirReset
  then contextMark ctx else EmptyString.

(** "dirCondition = (dir != NEUTRAL) && (dir != contextDir)". *)
Definition dirCondition (ctx : NullableDir) (dir : Dir) : bool :=
  negb (Dir_eqb dir NEUTRAL) && negb (eq (Some dir) ctx).

(** The value of the [dir] attribute of a direction. *)
Definition dirAttributeValue (dir : Dir) : string :=
  match dir with
  | RTL => "rtl"
  | _ => "ltr"
  end.

(** The embedding character that opens a run of a direction. *)
Definition embedding (dir : Dir) : string :=
  match dir with
  | RTL => RLE
  | _ => LRE
  end.

(** The reset flag a wrap operation works with, given its optional
    argument. *)
Definition effectiveDirReset (opt_dirReset : Js.OptBool) : bool :=
  Js.truthy (Js.or opt_dirReset (Js.Bool (Js.eq_undefined opt_dirReset))).

(** NEUTRAL resolved to the context. *)
Definition resolvedDir (ctx : NullableDir) (dir : Dir) : NullableDir :=
  match dir with
  | NEUTRAL => ctx
  | _ => Some dir
  end.

End Rules.

End Rules.

(* ===================================================================== *)
(** ** Sequences of calls on one formatter *)
(* ===================================================================== *)

Module Calls.

Import bidi BidiFormatter.

Section Calls.

Context {F : Format} {E : Estimator}.
Context {Html : Type} {H : SafeHtml.Ops Html}.

(** A call of a public method, with its arguments. *)
Inductive Call : Type :=
| GetContextDir
| GetAlwaysSpan
| SetContextDir (contextDir : DirInput)
| SetAlwaysSpan (alwaysSpan : bool)
| DirAttrValue (str : string) (opt_isHtml : Js.OptBool)
| KnownDirAttrValue (dir : Dir)
| DirAttr (str : string) (opt_isHtml : Js.OptBool)
| KnownDirAttr (dir : Dir)
| SpanWrapSafeHtml (html : Html) (opt_dirReset : Js.OptBool)
| SpanWrapSafeHtmlWithKnownDir (dir : NullableDir) (html : Html)
    (opt_dirReset : Js.OptBool)
| UnicodeWrap (str : string) (opt_isHtml opt_dirReset : Js.OptBool)
| UnicodeWrapWithKnownDir (dir : NullableDir) (str : string)
    (opt_isHtml opt_dirReset : Js.OptBool)
| MarkAfter (str : string) (opt_isHtml : Js.OptBool)
| MarkAfterKnownDir (dir : NullableDir) (str : string)
    (opt_isHtml : Js.OptBool)
| Mark
| StartEdge
| EndEdge.

(** A call whose return value the caller drops. *)
Definition drop {A : Type} (m : M A) : M unit := _ <- m ;; ret tt.

Definition perform (c : Call) : M unit :=
  match c with
  | GetContextDir => drop getContextDir
  | GetAlwaysSpan => drop getAlwaysSpan
  | SetContextDir contextDir => setContextDir contextDir
  | SetAlwaysSpan alwaysSpan => setAlwaysSpan alwaysSpan
  | DirAttrValue str h => drop (dirAttrValue str h)
  | KnownDirAttrValue dir => drop (knownDirAttrValue dir)
  | DirAttr str h => drop (dirAttr str h)
  | KnownDirAttr dir => drop (knownDirAttr dir)
  | SpanWrapSafeHtml html r => drop (spanWrapSafeHtml html r)
  | SpanWrapSafeHtmlWithKnownDir dir html r =>
      drop (spanWrapSafeHtmlWithKnownDir dir html r)
  | UnicodeWrap str h r => drop (unicodeWrap str h r)
  | UnicodeWrapWithKnownDir dir str h r =>
      drop (unicodeWrapWithKnownDir dir str h r)
  | MarkAfter str h => drop (markAfter str h)
  | MarkAfterKnownDir dir str h => drop (markAfterKnownDir dir str h)
  | Mark => drop mark
  | StartEdge => drop startEdge
  | EndEdge => drop endEdge
  end.

(** The calls of a list, one after the other, on the same object. *)
Fixpoint performAll (cs : list Call) : M unit :=
  match cs with
  | [] => ret tt
  | c :: cs => perform c ;; performAll cs
  end.

(** The context the last [setContextDir] of a list asks for, [ctx] when
    the list has none. *)
Fixpoint lastContextDir (cs : list Call) (ctx : NullableDir) : NullableDir :=
  match cs with
  | [] => ctx
  | SetContextDir contextDir :: cs => lastContextDir cs (toDir contextDir true)
  | _ :: cs => lastContextDir cs ctx
  end.

(** The flag the last [setAlwaysSpan] of a list asks for. *)
Fixpoint lastAlwaysSpan (cs : list Call) (span : bool) : bool :=
  match cs with
  | [] => span
  | SetAlwaysSpan alwaysSpan :: cs => lastAlwaysSpan cs alwaysSpan
  | _ :: cs => lastAlwaysSpan cs span
  end.

End Calls.

End Calls.

(* ===================================================================== *)
(** ** The formatter read right to left *)
(* ===================================================================== *)

Module Mirror.

Import bidi BidiFormatter.

(** LTR and RTL exchanged. *)
Definition dir (d : Dir) : Dir :=
  match d with
  | LTR => RTL
  | RTL => LTR
  | NEUTRAL => NEUTRAL
  end.

Definition nullableDir (d : NullableDir) : NullableDir := option_map dir d.

(** The characters of the other direction. *)
Definition format (F : Format) : Format := {|
  LRE := @RLE F;
  RLE := @LRE F;
  PDF := @PDF F;
  LRM := @RLM F;
  RLM := @LRM F
|}.

(** The estimator that sees every text in the other direction. *)
Definition estimator (E : Estimator) : Estimator := {|
  estimateDirection := fun s h => dir (@estimateDirection E s h);
  endsWithRtl := @endsWithLtr E;
  endsWithLtr := @endsWithRtl E
|}.

(** The formatter of the other context. *)
Definition formatter (this : t) : t :=
  mk (nullableDir (contextDir_ this)) (alwaysSpan_ this).

End Mirror.

(* ===================================================================== *)
(** ** Specification *)
(* ===================================================================== *)

Module Spec.

Import bidi BidiFormatter Rules.

(** Unfolds a method down to the state function it denotes. *)
Ltac run :=
  unfold result, after, evalState, execState,
    getContextDir, getAlwaysSpan, setContextDir, setAlwaysSpan,
    assign_contextDir_, assign_alwaysSpan_,
    dirAttrValue, dirAttr, knownDirAttrValue, knownDirAttr,
    mark, startEdge, endEdge,
    andM, orM, this_contextDir_, this_alwaysSpan_, gets;
  cbn.

(** *** Strings *)

Lemma append_nil_r (s : string) : s ++ EmptyString = s.
Proof. induction s as [|c s IH]; simpl; [reflexivity | now rewrite IH]. Qed.

Lemma append_assoc (a b c : string) : (a ++ b) ++ c = a ++ b ++ c.
Proof. induction a as [|x a IH]; simpl; [reflexivity | now rewrite IH]. Qed.

(** *** Equality of directions *)

Lemma Dir_eqb_eq (a b : Dir) : Dir_eqb a b = true <-> a = b.
Proof. destruct a, b; simpl; split; congruence. Qed.

Lemma eq_true_iff (a b : NullableDir) : eq a b = true <-> a = b.
Proof.
  destruct a as [a|], b as [b|]; simpl; try (split; congruence).
  rewrite Dir_eqb_eq. split; congruence.
Qed.

Lemma eq_false_iff (a b : NullableDir) : eq a b = false <-> a <> b.
Proof.
  rewrite <- eq_true_iff. destruct (eq a b); split; congruence.
Qed.

(** The context set by the constructor or by the setter is never
    NEUTRAL. *)
Lemma toDir_noNeutral (givenDir : DirInput) :
  toDir givenDir true <> Some NEUTRAL.
Proof.
  destruct givenDir as [n|[]|]; simpl; try congruence.
  destruct (0 <? n)%Z; [congruence|]. destruct (n <? 0)%Z; congruence.
Qed.

Lemma toDir_ofDir (d : Dir) :
  toDir (ofDir d) true = match d with NEUTRAL => None | _ => Some d end.
Proof. destruct d; reflexivity. Qed.

(** *** What each method computes, as a function of the fields *)

Section Methods.

  Context {F : Format} {E : Estimator}.
  Context {Html : Type} {H : SafeHtml.Ops Html}.

Lemma resetNeededb_spec ctx str dir isHtml dirReset :
  resetNeededb ctx str dir isHtml dirReset = true
  <-> resetNeeded ctx str dir isHtml dirReset.
Proof.
  unfold resetNeededb, resetNeeded.
  rewrite andb_true_iff, !orb_true_iff, !andb_true_iff, !eq_true_iff.
  tauto.
Qed.

Lemma resetNeeded_context ctx str dir isHtml dirReset :
  resetNeeded ctx str dir isHtml dirReset ->
  ctx = Some LTR \/ ctx = Some RTL.
Proof.
  intros [_ [Ho | [[Hc _] | [Hc _]]]]; auto.
  destruct ctx as [[]|], dir; simpl in Ho; auto; discriminate.
Qed.

Lemma dirCondition_spec ctx dir :
  dirCondition ctx dir = true <-> dir <> NEUTRAL /\ Some dir <> ctx.
Proof.
  unfold dirCondition.
  rewrite andb_true_iff, !negb_true_iff, eq_false_iff.
  destruct dir; simpl; intuition congruence.
Qed.

Lemma effectiveDirReset_cases (o : Js.OptBool) :
  effectiveDirReset o =
  match o with
  | Js.Bool false => false
  | _ => true
  end.
Proof. destruct o as [| |[]]; reflexivity. Qed.

Lemma run_dirResetIfNeeded_ str dir isHtml dirReset this :
  runState (dirResetIfNeeded_ str dir isHtml dirReset) this =
  (trailingMark (contextDir_ this) str dir isHtml (Js.truthy dirReset), this).
Proof.
  unfold dirResetIfNeeded_, trailingMark, resetNeededb. run.
  destruct this as [[[]|] a], dir, (Js.truthy dirReset); cbn;
    try reflexivity;
    destruct (endsWithRtl str isHtml), (endsWithLtr str isHtml);
    reflexivity.
Qed.

#[local] Arguments dirResetIfNeeded_ : simpl never.

Lemma run_spanWrapWithKnownDir_ dir (html : Html) opt_dirReset this :
  runState (spanWrapWithKnownDir_ dir html opt_dirReset) this =
  (SafeHtml.concat
     (if alwaysSpan_ this || dirCondition (contextDir_ this) dir
      then SafeHtml.create "span"
             [("dir", if dirCondition (contextDir_ this) dir
                      then Some (dirAttributeValue dir) else None)] html
      else html)
     (trailingMark (contextDir_ this) (SafeHtml.unwrap html) dir
        (Js.Bool true) (effectiveDirReset opt_dirReset)),
   this).
Proof.
  unfold spanWrapWithKnownDir_, effectiveDirReset, dirCondition. run.
  destruct this as [ctx a]; cbn.
  destruct dir, a, ctx as [[]|]; cbn;
    rewrite run_dirResetIfNeeded_; reflexivity.
Qed.

Lemma run_unicodeWrapWithKnownDir_ dir str isHtml opt_dirReset this :
  runState (unicodeWrapWithKnownDir_ dir str isHtml opt_dirReset) this =
  ((if dirCondition (contextDir_ this) dir
    then embedding dir ++ str ++ PDF else str)
   ++ trailingMark (contextDir_ this) str dir isHtml
        (effectiveDirReset opt_dirReset),
   this).
Proof.
  unfold unicodeWrapWithKnownDir_, effectiveDirReset, dirCondition. run.
  destruct this as [ctx a]; cbn.
  destruct dir, ctx as [[]|]; cbn;
    rewrite run_dirResetIfNeeded_; cbn;
    rewrite ?append_assoc; reflexivity.
Qed.

(** *** The opposite-direction test *)

(** C8. Two directions are opposite exactly when the product of their
    numbers is strictly negative, that is when one is LTR and the other
    RTL; NEUTRAL (0) and an unknown direction ([null], converted to 0) are
    opposite to nothing; the test is symmetric. *)
Theorem areDirectionalitiesOpposite_sign :
  forall dir1 dir2 : NullableDir,
    (areDirectionalitiesOpposite_ dir1 dir2 = true
     <-> (Number dir1 * Number dir2 < 0)%Z)
    /\ (areDirectionalitiesOpposite_ dir1 dir2 = true
        <-> (dir1 = Some LTR /\ dir2 = Some RTL)
            \/ (dir1 = Some RTL /\ dir2 = Some LTR))
    /\ areDirectionalitiesOpposite_ (Some NEUTRAL) dir2 = false
    /\ areDirectionalitiesOpposite_ dir1 (Some NEUTRAL) = false
    /\ areDirectionalitiesOpposite_ None dir2 = false
    /\ areDirectionalitiesOpposite_ dir1 None = false
    /\ areDirectionalitiesOpposite_ dir1 dir2
       = areDirectionalitiesOpposite_ dir2 dir1.
Proof.
  intros dir1 dir2. unfold areDirectionalitiesOpposite_.
  repeat match goal with |- _ /\ _ => split end.
  - apply Z.ltb_lt.
  - rewrite Z.ltb_lt.
    destruct dir1 as [[]|], dir2 as [[]|]; simpl;
      intuition (try discriminate; try lia).
  - reflexivity.
  - rewrite Z.mul_0_r. reflexivity.
  - reflexivity.
  - rewrite Z.mul_0_r. reflexivity.
  - rewrite Z.mul_comm. reflexivity.
Qed.

(** *** The trailing-mark reset rule *)

(** C1. [dirResetIfNeeded_] returns the mark of the context (LRM in an LTR
    context, RLM in an RTL one) when the reset is asked for and the
    direction is opposite to the context or the text exits in the
    direction opposite to the context, and the empty string otherwise; in
    an unknown context it returns the empty string.  The mark-after
    operations return that mark with the reset asked for, and both wrap
    operations append it to what they emit. *)
Theorem dirResetIfNeeded_rule :
  forall (this : t) (str : string) (dir : Dir)
         (isHtml opt_dirReset : Js.OptBool) (html : Html),
    let ctx := contextDir_ this in
    let reset := fun s d h r => result (dirResetIfNeeded_ s d h r) this in
    (resetNeeded ctx str dir isHtml (Js.truthy opt_dirReset) ->
     (ctx = Some LTR /\ reset str dir isHtml opt_dirReset = LRM)
     \/ (ctx = Some RTL /\ reset str dir isHtml opt_dirReset = RLM))
    /\ (~ resetNeeded ctx str dir isHtml (Js.truthy opt_dirReset) ->
        reset str dir isHtml opt_dirReset = EmptyString)
    /\ (ctx = None -> reset str dir isHtml opt_dirReset = EmptyString)
    /\ result (markAfterKnownDir (Some dir) str isHtml) this
       = reset str dir isHtml (Js.Bool true)
    /\ result (markAfter str isHtml) this
       = reset str (estimateDirection str isHtml) isHtml (Js.Bool true)
    /\ (exists body,
          result (unicodeWrapWithKnownDir_ dir str isHtml opt_dirReset) this
          = body ++ reset str dir isHtml
                      (Js.Bool (effectiveDirReset opt_dirReset)))
    /\ (exists body,
          result (spanWrapWithKnownDir_ dir html opt_dirReset) this
          = SafeHtml.concat body
              (reset (SafeHtml.unwrap html) dir (Js.Bool true)
                 (Js.Bool (effectiveDirReset opt_dirReset)))).
Proof.
  intros this str dir isHtml opt_dirReset html ctx reset. subst reset.
  unfold result, evalState. rewrite !run_dirResetIfNeeded_. cbn [fst Js.truthy].
  fold ctx. unfold trailingMark.
  repeat match goal with |- _ /\ _ => split end.
  - intros Hn. pose proof (resetNeeded_context _ _ _ _ _ Hn) as Hc.
    apply resetNeededb_spec in Hn. rewrite Hn.
    destruct Hc as [-> | ->]; [left | right]; split; reflexivity.
  - intros Hn. rewrite <- resetNeededb_spec in Hn.
    destruct (resetNeededb ctx str dir isHtml (Js.truthy opt_dirReset));
      [exfalso; apply Hn |]; reflexivity.
  - intros ->. destruct (resetNeededb _ _ _ _ _); reflexivity.
  - unfold markAfterKnownDir. rewrite run_dirResetIfNeeded_. reflexivity.
  - unfold markAfter, markAfterKnownDir. rewrite run_dirResetIfNeeded_.
    reflexivity.
  - rewrite run_unicodeWrapWithKnownDir_. eexists. reflexivity.
  - rewrite run_spanWrapWithKnownDir_. eexists. reflexivity.
Qed.

(** *** Wrapping in markup *)

(** C2. [spanWrapWithKnownDir_] wraps the value in a [span] exactly when
    [alwaysSpan_] is set or the direction is not NEUTRAL and differs from
    the context; the [dir] attribute (rtl for RTL, ltr for LTR) is present
    exactly when the latter holds, and absent when only [alwaysSpan_]
    forced the wrap; otherwise the value is passed as it is.  The trailing
    mark is the one of the reset rule on the text of the original value,
    read as HTML. *)
Theorem spanWrapWithKnownDir_decision :
  forall (this : t) (dir : Dir) (html : Html) (opt_dirReset : Js.OptBool),
    let ctx := contextDir_ this in
    let reset :=
      result (dirResetIfNeeded_ (SafeHtml.unwrap html) dir (Js.Bool true)
                (Js.Bool (effectiveDirReset opt_dirReset))) this in
    let wrapped := result (spanWrapWithKnownDir_ dir html opt_dirReset) this in
    (dirCondition ctx dir = true <-> dir <> NEUTRAL /\ Some dir <> ctx)
    /\ (dir = RTL -> Some dir <> ctx ->
        wrapped = SafeHtml.concat
                    (SafeHtml.create "span" [("dir", Some "rtl")] html) reset)
    /\ (dir = LTR -> Some dir <> ctx ->
        wrapped = SafeHtml.concat
                    (SafeHtml.create "span" [("dir", Some "ltr")] html) reset)
    /\ (dirCondition ctx dir = false -> alwaysSpan_ this = true ->
        wrapped = SafeHtml.concat
                    (SafeHtml.create "span" [("dir", None)] html) reset)
    /\ (dirCondition ctx dir = false -> alwaysSpan_ this = false ->
        wrapped = SafeHtml.concat html reset)
    /\ result (spanWrapSafeHtmlWithKnownDir (Some dir) html opt_dirReset) this
       = wrapped.
Proof.
  intros this dir html opt_dirReset ctx reset wrapped.
  subst reset wrapped. unfold result, evalState, spanWrapSafeHtmlWithKnownDir.
  rewrite run_spanWrapWithKnownDir_, run_dirResetIfNeeded_.
  cbn [fst Js.truthy]. fold ctx.
  repeat match goal with |- _ /\ _ => split end.
  - apply dirCondition_spec.
  - intros -> Hne.
    assert (Hc : dirCondition ctx RTL = true)
      by (apply dirCondition_spec; split; [discriminate | exact Hne]).
    rewrite Hc, orb_true_r. reflexivity.
  - intros -> Hne.
    assert (Hc : dirCondition ctx LTR = true)
      by (apply dirCondition_spec; split; [discriminate | exact Hne]).
    rewrite Hc, orb_true_r. reflexivity.
  - intros -> ->. reflexivity.
  - intros -> ->. reflexivity.
  - reflexivity.
Qed.

(** C6. With the reset explicitly off, a context equal to the direction
    and [alwaysSpan_] unset, the markup wrap applies no container and
    appends the empty mark: what it returns is the value with the empty
    string concatenated.  That is the value itself when concatenating the
    empty string gives the value back, and a value of the same text when
    concatenating the empty string keeps the text. *)
Theorem spanWrap_roundtrip :
  forall (this : t) (dir : Dir) (html : Html),
    contextDir_ this = Some dir ->
    alwaysSpan_ this = false ->
    let wrapped := result (spanWrapWithKnownDir_ dir html (Js.Bool false)) this in
    wrapped = SafeHtml.concat html EmptyString
    /\ result (spanWrapSafeHtmlWithKnownDir (Some dir) html (Js.Bool false)) this
       = wrapped
    /\ ((forall h : Html, SafeHtml.concat h EmptyString = h) ->
        wrapped = html)
    /\ ((forall h : Html,
           SafeHtml.unwrap (SafeHtml.concat h EmptyString) = SafeHtml.unwrap h) ->
        SafeHtml.unwrap wrapped = SafeHtml.unwrap html).
Proof.
  intros this dir html Hctx Hspan wrapped.
  assert (Hrun : wrapped = SafeHtml.concat html EmptyString).
  { subst wrapped. unfold result, evalState. rewrite run_spanWrapWithKnownDir_.
    rewrite Hctx, Hspan. unfold dirCondition, trailingMark, resetNeededb.
    destruct dir; reflexivity. }
  repeat match goal with |- _ /\ _ => split end.
  - exact Hrun.
  - reflexivity.
  - intros Hconcat. rewrite Hrun. apply Hconcat.
  - intros Hconcat. rewrite Hrun. apply Hconcat.
Qed.

(** *** Wrapping in Unicode control characters *)

(** C3. [unicodeWrapWithKnownDir_] returns RLE, the text, PDF for an RTL
    text in a context that is not RTL, LRE, the text, PDF for an LTR text
    in a context that is not LTR, and the text alone for a NEUTRAL text or
    one of the direction of the context; in each case the trailing mark of
    the reset rule follows.  The text stands in the result as it was
    given. *)
Theorem unicodeWrapWithKnownDir_embedding :
  forall (this : t) (dir : Dir) (str : string)
         (opt_isHtml opt_dirReset : Js.OptBool),
    let ctx := contextDir_ this in
    let reset :=
      result (dirResetIfNeeded_ str dir opt_isHtml
                (Js.Bool (effectiveDirReset opt_dirReset))) this in
    let wrapped :=
      result (unicodeWrapWithKnownDir_ dir str opt_isHtml opt_dirReset) this in
    (dir = RTL -> ctx <> Some RTL -> wrapped = RLE ++ str ++ PDF ++ reset)
    /\ (dir = LTR -> ctx <> Some LTR -> wrapped = LRE ++ str ++ PDF ++ reset)
    /\ (dir = NEUTRAL \/ ctx = Some dir -> wrapped = str ++ reset)
    /\ result (unicodeWrapWithKnownDir (Some dir) str opt_isHtml opt_dirReset)
         this = wrapped.
Proof.
  intros this dir str opt_isHtml opt_dirReset ctx reset wrapped.
  subst reset wrapped. unfold result, evalState, unicodeWrapWithKnownDir.
  rewrite run_unicodeWrapWithKnownDir_, run_dirResetIfNeeded_.
  cbn [fst Js.truthy]. fold ctx.
  repeat match goal with |- _ /\ _ => split end.
  - intros -> Hne.
    assert (Hc : dirCondition ctx RTL = true)
      by (apply dirCondition_spec; split; [discriminate | congruence]).
    rewrite Hc. cbn [embedding]. now rewrite !append_assoc.
  - intros -> Hne.
    assert (Hc : dirCondition ctx LTR = true)
      by (apply dirCondition_spec; split; [discriminate | congruence]).
    rewrite Hc. cbn [embedding]. now rewrite !append_assoc.
  - intros Hd.
    assert (Hc : dirCondition ctx dir = false).
    { destruct (dirCondition ctx dir) eqn:Hc; [|reflexivity].
      apply dirCondition_spec in Hc. destruct Hc as [Hn Hne].
      destruct Hd as [Hd | Hd]; [contradiction | congruence]. }
    rewrite Hc. reflexivity.
  - reflexivity.
Qed.

(** *** The [dir] attribute *)

(** C4. [knownDirAttr] returns the empty string for the direction of the
    context; for a direction that differs from the context it returns
    [dir="rtl"] for RTL, [dir="ltr"] for LTR and the empty string for
    NEUTRAL; an unknown context differs from every direction, so that the
    attribute is emitted for every direction but NEUTRAL. *)
Theorem knownDirAttr_conditional :
  forall (this : t) (dir : Dir),
    let ctx := contextDir_ this in
    let attr := result (knownDirAttr dir) this in
    (ctx = Some dir -> attr = EmptyString)
    /\ (ctx <> Some dir ->
        attr = match dir with
               | RTL => attr_rtl
               | LTR => attr_ltr
               | NEUTRAL => EmptyString
               end)
    /\ (ctx = None ->
        Some dir <> ctx
        /\ (dir = RTL -> attr = attr_rtl)
        /\ (dir = LTR -> attr = attr_ltr)
        /\ (dir = NEUTRAL -> attr = EmptyString))
    /\ list_ascii_of_string attr_rtl
       = ["d"; "i"; "r"; "="; "034"; "r"; "t"; "l"; "034"]%char
    /\ list_ascii_of_string attr_ltr
       = ["d"; "i"; "r"; "="; "034"; "l"; "t"; "r"; "034"]%char.
Proof.
  intros [ctx a] dir. run.
  repeat match goal with |- _ /\ _ => split end;
    try reflexivity.
  - intros ->. destruct dir; reflexivity.
  - intros Hne. destruct dir, ctx as [[]|]; try reflexivity; congruence.
  - intros ->. split; [discriminate |].
    repeat split; intros ->; reflexivity.
Qed.

(** C5. [knownDirAttrValue] returns "rtl" or "ltr" and nothing else, for
    every direction and every context: "rtl" exactly when the direction,
    NEUTRAL being resolved to the context, is RTL, and "ltr" otherwise; so
    NEUTRAL in an unknown context gives "ltr", and NEUTRAL in a known
    context gives what the direction of the context gives. *)
Theorem knownDirAttrValue_total :
  forall (this : t) (dir : Dir),
    let ctx := contextDir_ this in
    let value := result (knownDirAttrValue dir) this in
    (value = "rtl" \/ value = "ltr")
    /\ (value = "rtl" <-> resolvedDir ctx dir = Some RTL)
    /\ (value = "ltr" <-> resolvedDir ctx dir <> Some RTL)
    /\ (dir = NEUTRAL -> ctx = None -> value = "ltr")
    /\ (dir = NEUTRAL ->
        forall d : Dir, ctx = Some d ->
        value = result (knownDirAttrValue d) this)
    /\ (dir <> NEUTRAL -> resolvedDir ctx dir = Some dir).
Proof.
  intros [ctx a] dir. run.
  repeat match goal with |- _ /\ _ => split end.
  - destruct dir, ctx as [[]|]; cbn; auto.
  - destruct dir, ctx as [[]|]; cbn; split; congruence.
  - destruct dir, ctx as [[]|]; cbn; split; congruence.
  - intros -> ->. reflexivity.
  - intros -> d ->. destruct d; reflexivity.
  - destruct dir; cbn; congruence.
Qed.

(** *** The bare mark *)

(** C7. [mark] returns LRM in an LTR context, RLM in an RTL context and
    the empty string in an unknown one; two calls in a row return the same
    string and leave the object as it was; after [setContextDir] the next
    call returns the mark of the new context. *)
Theorem mark_context_idempotent :
  forall (this : t),
    (contextDir_ this = Some LTR -> result mark this = LRM)
    /\ (contextDir_ this = Some RTL -> result mark this = RLM)
    /\ (contextDir_ this = None -> result mark this = EmptyString)
    /\ result (a <- mark ;; b <- mark ;; ret (a, b)) this
       = (result mark this, result mark this)
    /\ after mark this = this
    /\ (forall contextDir : DirInput,
          result (setContextDir contextDir ;; mark) this
          = contextMark (toDir contextDir true))
    /\ result (setContextDir (ofDir LTR) ;; mark) this = LRM
    /\ result (setContextDir (ofDir RTL) ;; mark) this = RLM
    /\ result (setContextDir (ofDir NEUTRAL) ;; mark) this = EmptyString
    /\ result (setContextDir InNull ;; mark) this = EmptyString
    /\ result (setContextDir (InBoolean true) ;; mark) this = RLM
    /\ result (setContextDir (InBoolean false) ;; mark) this = LRM.
Proof.
  intros [ctx a]. run.
  repeat match goal with |- _ /\ _ => split end;
    try reflexivity.
  - intros ->. reflexivity.
  - intros ->. reflexivity.
  - intros ->. reflexivity.
Qed.

(** *** The fields of the object *)

(** C9. No formatting or query method changes [contextDir_] or
    [alwaysSpan_]: after each of them the object is the one before the
    call.  The two setters are the methods that write a field, each its
    own. *)
Theorem formatting_preserves_fields :
  forall (this : t),
    (forall str isHtml, after (dirAttrValue str isHtml) this = this)
    /\ (forall dir, after (knownDirAttrValue dir) this = this)
    /\ (forall str isHtml, after (dirAttr str isHtml) this = this)
    /\ (forall dir, after (knownDirAttr dir) this = this)
    /\ (forall (html : Html) dirReset,
          after (spanWrapSafeHtml html dirReset) this = this)
    /\ (forall dir (html : Html) dirReset,
          after (spanWrapSafeHtmlWithKnownDir dir html dirReset) this = this)
    /\ (forall dir (html : Html) dirReset,
          after (spanWrapWithKnownDir_ dir html dirReset) this = this)
    /\ (forall str isHtml dirReset,
          after (unicodeWrap str isHtml dirReset) this = this)
    /\ (forall dir str isHtml dirReset,
          after (unicodeWrapWithKnownDir dir str isHtml dirReset) this = this)
    /\ (forall dir str isHtml dirReset,
          after (unicodeWrapWithKnownDir_ dir str isHtml dirReset) this = this)
    /\ (forall str isHtml, after (markAfter str isHtml) this = this)
    /\ (forall dir str isHtml,
          after (markAfterKnownDir dir str isHtml) this = this)
    /\ (forall str dir isHtml dirReset,
          after (dirResetIfNeeded_ str dir isHtml dirReset) this = this)
    /\ after mark this = this
    /\ after startEdge this = this
    /\ after endEdge this = this
    /\ after getContextDir this = this
    /\ after getAlwaysSpan this = this
    /\ (forall contextDir,
          after (setContextDir contextDir) this
          = mk (toDir contextDir true) (alwaysSpan_ this))
    /\ (forall alwaysSpan,
          after (setAlwaysSpan alwaysSpan) this
          = mk (contextDir_ this) alwaysSpan).
Proof.
  intros this.
  repeat match goal with |- _ /\ _ => split end; intros;
    unfold after, execState, spanWrapSafeHtml, spanWrapSafeHtmlWithKnownDir,
      unicodeWrap, unicodeWrapWithKnownDir, markAfter, markAfterKnownDir;
    rewrite ?run_spanWrapWithKnownDir_, ?run_unicodeWrapWithKnownDir_,
      ?run_dirResetIfNeeded_;
    try reflexivity.
  - run. destruct (Dir_eqb _ _); reflexivity.
  - run. destruct (Dir_eqb dir NEUTRAL); reflexivity.
  - run. destruct (negb _); reflexivity.
  - run. destruct (negb _); reflexivity.
Qed.

(** *** The optional reset argument *)

(** C10. Both wrap operations work with the reset flag
    [opt_dirReset || (opt_dirReset == undefined)]: it is false exactly when
    the caller passes [false]; an omitted or [null] argument gives what
    [true] gives, the mark of the reset rule being appended; with [false]
    the mark is the empty string.  For the markup wrap as for the Unicode
    wrap the result is given for each of the four arguments: the wrapped
    or unwrapped value followed by the mark of the reset rule with the
    reset on for an omitted, [null] or [true] argument, and followed by
    the empty string for [false]. *)
Theorem dirReset_default_true :
  forall (this : t) (dir : Dir) (html : Html) (str : string)
         (isHtml opt_dirReset : Js.OptBool),
    (effectiveDirReset opt_dirReset = false <-> opt_dirReset = Js.Bool false)
    /\ result (spanWrapWithKnownDir_ dir html opt_dirReset) this
       = result (spanWrapWithKnownDir_ dir html
                   (Js.Bool (effectiveDirReset opt_dirReset))) this
    /\ result (unicodeWrapWithKnownDir_ dir str isHtml opt_dirReset) this
       = result (unicodeWrapWithKnownDir_ dir str isHtml
                   (Js.Bool (effectiveDirReset opt_dirReset))) this
    /\ result (spanWrapWithKnownDir_ dir html Js.Undefined) this
       = result (spanWrapWithKnownDir_ dir html (Js.Bool true)) this
    /\ result (spanWrapWithKnownDir_ dir html Js.Null) this
       = result (spanWrapWithKnownDir_ dir html (Js.Bool true)) this
    /\ result (unicodeWrapWithKnownDir_ dir str isHtml Js.Undefined) this
       = result (unicodeWrapWithKnownDir_ dir str isHtml (Js.Bool true)) this
    /\ result (unicodeWrapWithKnownDir_ dir str isHtml Js.Null) this
       = result (unicodeWrapWithKnownDir_ dir str isHtml (Js.Bool true)) this
    /\ result (unicodeWrapWithKnownDir_ dir str isHtml Js.Undefined) this
       = (if dirCondition (contextDir_ this) dir
          then embedding dir ++ str ++ PDF else str)
         ++ result (dirResetIfNeeded_ str dir isHtml (Js.Bool true)) this
    /\ result (unicodeWrapWithKnownDir_ dir str isHtml (Js.Bool false)) this
       = (if dirCondition (contextDir_ this) dir
          then embedding dir ++ str ++ PDF else str)
         ++ EmptyString
    /\ result (dirResetIfNeeded_ str dir isHtml (Js.Bool false)) this
       = EmptyString
    /\ result (spanWrapSafeHtml html Js.Undefined) this
       = result (spanWrapSafeHtml html (Js.Bool true)) this
    /\ result (unicodeWrap str isHtml Js.Undefined) this
       = result (unicodeWrap str isHtml (Js.Bool true)) this
    /\ (let container :=
          if alwaysSpan_ this || dirCondition (contextDir_ this) dir
          then SafeHtml.create "span"
                 [("dir", if dirCondition (contextDir_ this) dir
                          then Some (dirAttributeValue dir) else None)] html
          else html in
        let reset :=
          result (dirResetIfNeeded_ (SafeHtml.unwrap html) dir (Js.Bool true)
                    (Js.Bool true)) this in
        result (spanWrapWithKnownDir_ dir html Js.Undefined) this
        = SafeHtml.concat container reset
        /\ result (spanWrapWithKnownDir_ dir html Js.Null) this
           = SafeHtml.concat container reset
        /\ result (spanWrapWithKnownDir_ dir html (Js.Bool true)) this
           = SafeHtml.concat container reset
        /\ result (spanWrapWithKnownDir_ dir html (Js.Bool false)) this
           = SafeHtml.concat container EmptyString
        /\ result (spanWrapWithKnownDir_ dir html opt_dirReset) this
           = SafeHtml.concat container
               (if effectiveDirReset opt_dirReset then reset else EmptyString)
        /\ result (spanWrapSafeHtmlWithKnownDir (Some dir) html Js.Undefined)
             this
           = SafeHtml.concat container reset
        /\ result (spanWrapSafeHtmlWithKnownDir (Some dir) html
                     (Js.Bool false)) this
           = SafeHtml.concat container EmptyString)
    /\ (let body :=
          if dirCondition (contextDir_ this) dir
          then embedding dir ++ str ++ PDF else str in
        let reset :=
          result (dirResetIfNeeded_ str dir isHtml (Js.Bool true)) this in
        result (unicodeWrapWithKnownDir_ dir str isHtml Js.Null) this
        = body ++ reset
        /\ result (unicodeWrapWithKnownDir_ dir str isHtml (Js.Bool true)) this
           = body ++ reset
        /\ result (unicodeWrapWithKnownDir_ dir str isHtml (Js.Bool false)) this
           = body
        /\ result (unicodeWrapWithKnownDir_ dir str isHtml opt_dirReset) this
           = body ++ (if effectiveDirReset opt_dirReset
                      then reset else EmptyString)).
Proof.
  intros this dir html str isHtml opt_dirReset.
  unfold result, evalState, spanWrapSafeHtml, spanWrapSafeHtmlWithKnownDir,
    unicodeWrap, unicodeWrapWithKnownDir.
  rewrite !run_spanWrapWithKnownDir_, !run_unicodeWrapWithKnownDir_,
    !run_dirResetIfNeeded_.
  cbn zeta.
  repeat match goal with |- _ /\ _ => split end;
    try reflexivity.
  - rewrite effectiveDirReset_cases.
    destruct opt_dirReset as [| |[]]; split; congruence.
  - destruct opt_dirReset as [| |[]]; reflexivity.
  - destruct opt_dirReset as [| |[]]; reflexivity.
  - destruct opt_dirReset as [| |[]]; reflexivity.
  - cbn [fst]. unfold trailingMark, resetNeededb. cbn [andb].
    apply append_nil_r.
  - destruct opt_dirReset as [| |[]]; reflexivity.
Qed.

End Methods.

End Spec.

(* ===================================================================== *)
(** ** The formatter on inputs *)
(* ===================================================================== *)

Module Scenarios.

Import bidi BidiFormatter Rules Standin.

(** An RTL text in an LTR context: the attribute is emitted, the text is
    embedded and the LTR mark follows. *)
Example rtl_text_in_ltr_context :
  let this := new (ofDir LTR) Js.Undefined in
  estimateDirection "SHALOM" Js.Undefined = RTL
  /\ result (knownDirAttr RTL) this = attr_rtl
  /\ result (unicodeWrapWithKnownDir (Some RTL) "SHALOM" Js.Undefined
               Js.Undefined) this
     = RLE ++ "SHALOM" ++ PDF ++ LRM
  /\ result (unicodeWrap "SHALOM" Js.Undefined Js.Undefined) this
     = RLE ++ "SHALOM" ++ PDF ++ LRM
  /\ result (unicodeWrap "SHALOM" Js.Undefined (Js.Bool false)) this
     = RLE ++ "SHALOM" ++ PDF.
Proof. repeat split. Qed.

(** [alwaysSpan_] in an RTL context: an LTR text gets the attribute and
    the RTL mark, an RTL text a [span] without attribute and no mark. *)
Example always_span_in_rtl_context :
  let this := new (InBoolean true) (Js.Bool true) in
  result (spanWrapSafeHtml "hello" Js.Undefined) this
  = "<span dir='ltr'>hello</span>" ++ RLM
  /\ result (spanWrapSafeHtml "SHALOM" Js.Undefined) this
     = "<span>SHALOM</span>".
Proof. repeat split. Qed.

(** A text of the direction of the context that exits in the opposite
    direction is not wrapped, and is followed by the mark. *)
Example exit_direction_in_ltr_context :
  let this := new (InNumber 1) Js.Undefined in
  estimateDirection "hello world SHALOM" Js.Undefined = LTR
  /\ result (spanWrapSafeHtml "hello world SHALOM" Js.Undefined) this
     = "hello world SHALOM" ++ LRM
  /\ result (markAfter "hello world SHALOM" Js.Undefined) this = LRM
  /\ result (markAfter "hello world" Js.Undefined) this = EmptyString.
Proof. repeat split. Qed.

(** An unknown context: no mark, "ltr" for a NEUTRAL text, and the
    attribute for every text that is not NEUTRAL. *)
Example unknown_context :
  let this := new InNull Js.Undefined in
  result mark this = EmptyString
  /\ result (knownDirAttrValue NEUTRAL) this = "ltr"
  /\ result (dirAttr "hello" Js.Undefined) this = attr_ltr
  /\ result (dirAttr "123" Js.Undefined) this = EmptyString
  /\ result (unicodeWrap "SHALOM" Js.Undefined Js.Undefined) this
     = RLE ++ "SHALOM" ++ PDF
  /\ result startEdge this = "left"
  /\ result endEdge this = "right".
Proof. repeat split. Qed.

(** The round trip on an RTL value in an RTL context. *)
Lemma spanWrap_roundtrip_witness :
  let this := new (ofDir RTL) Js.Undefined in
  let wrapped :=
    result (spanWrapWithKnownDir_ RTL "SHALOM" (Js.Bool false)) this in
  contextDir_ this = Some RTL
  /\ alwaysSpan_ this = false
  /\ wrapped = SafeHtml.concat "SHALOM" EmptyString
  /\ result (spanWrapSafeHtmlWithKnownDir (Some RTL) "SHALOM" (Js.Bool false))
       this = wrapped
  /\ wrapped = "SHALOM"
  /\ SafeHtml.unwrap wrapped = "SHALOM".
Proof.
  intros this wrapped.
  split; [reflexivity |].
  split; [reflexivity |].
  destruct (Spec.spanWrap_roundtrip this RTL "SHALOM" eq_refl eq_refl)
    as (Hrun & Hpublic & Hvalue & Htext).
  split; [exact Hrun |].
  split; [exact Hpublic |].
  split; [exact (Hvalue Spec.append_nil_r) |].
  exact (Htext Spec.append_nil_r).
Defined.

End Scenarios.

(* ===================================================================== *)
(** ** Further properties of the formatter *)
(* ===================================================================== *)

Module More.

Import bidi BidiFormatter Rules Calls.
Import Spec.

Section Methods.

Context {F : Format} {E : Estimator}.
Context {Html : Type} {H : SafeHtml.Ops Html}.

#[local] Arguments dirResetIfNeeded_ : simpl never.
#[local] Arguments spanWrapWithKnownDir_ : simpl never.
#[local] Arguments unicodeWrapWithKnownDir_ : simpl never.

(** *** Construction and accessors *)

Lemma run_drop {A : Type} (m : M A) (this : t) :
  runState (drop m) this = (tt, snd (runState m this)).
Proof. unfold drop. cbn. destruct (runState m this). reflexivity. Qed.

Lemma run_perform (c : Call) (this : t) :
  runState (perform c) this =
  (tt, match c with
       | SetContextDir contextDir =>
           mk (toDir contextDir true) (alwaysSpan_ this)
       | SetAlwaysSpan alwaysSpan => mk (contextDir_ this) alwaysSpan
       | _ => this
       end).
Proof.
  destruct c; unfold perform; rewrite ?run_drop;
    unfold spanWrapSafeHtml, spanWrapSafeHtmlWithKnownDir,
      unicodeWrap, unicodeWrapWithKnownDir, markAfter, markAfterKnownDir;
    rewrite ?run_spanWrapWithKnownDir_, ?run_unicodeWrapWithKnownDir_,
      ?run_dirResetIfNeeded_;
    try reflexivity.
  - run. destruct (Dir_eqb _ _); reflexivity.
  - run. destruct (Dir_eqb dir NEUTRAL); reflexivity.
  - run. destruct (negb _); reflexivity.
  - run. destruct (negb _); reflexivity.
Qed.

Lemma after_performAll (cs : list Call) (this : t) :
  after (performAll cs) this
  = mk (lastContextDir cs (contextDir_ this))
       (lastAlwaysSpan cs (alwaysSpan_ this)).
Proof.
  revert this. induction cs as [|c cs IH]; intros this.
  - destruct this. reflexivity.
  - unfold after, execState in *. cbn [performAll].
    change (snd (runState (bind (perform c) (fun _ => performAll cs)) this))
      with (snd (let (v, s) := runState (perform c) this in
                 runState (performAll cs) s)).
    rewrite run_perform. rewrite IH.
    destruct c; reflexivity.
Qed.

Lemma lastContextDir_noNeutral (cs : list (@Call Html)) (ctx : NullableDir) :
  ctx <> Some NEUTRAL -> lastContextDir cs ctx <> Some NEUTRAL.
Proof.
  revert ctx. induction cs as [|c cs IH]; intros ctx Hctx; [exact Hctx |].
  destruct c; cbn [lastContextDir]; try (apply IH; exact Hctx).
  apply IH. apply toDir_noNeutral.
Qed.

(** X1. The getters return what the constructor and the setters stored:
    the context is [toDir] of the argument, the flag is the truth value of
    the optional argument (false when it is omitted).  Each setter leaves
    the other field alone, the two setters commute, a second call of a
    setter overrides the first, and a formatter whose two fields were set
    is the formatter the constructor builds from the same arguments. *)
Theorem accessors_roundtrip :
  forall (this : t) (c c' : DirInput) (a : Js.OptBool) (b b' : bool),
    result getContextDir (new c a) = toDir c true
    /\ result getAlwaysSpan (new c a) = Js.truthy a
    /\ result getAlwaysSpan (new c Js.Undefined) = false
    /\ result (setContextDir c ;; getContextDir) this = toDir c true
    /\ result (setAlwaysSpan b ;; getAlwaysSpan) this = b
    /\ result (setContextDir c ;; getAlwaysSpan) this
       = result getAlwaysSpan this
    /\ result (setAlwaysSpan b ;; getContextDir) this
       = result getContextDir this
    /\ after (setContextDir c ;; setAlwaysSpan b) this
       = after (setAlwaysSpan b ;; setContextDir c) this
    /\ after (setContextDir c ;; setContextDir c') this
       = after (setContextDir c') this
    /\ after (setAlwaysSpan b ;; setAlwaysSpan b') this
       = after (setAlwaysSpan b') this
    /\ after (setContextDir c ;; setAlwaysSpan (Js.truthy a)) this = new c a.
Proof.
  intros [ctx s] c c' a b b'. run.
  repeat match goal with |- _ /\ _ => split end; reflexivity.
Qed.

(** X2. After any sequence of calls of public methods on a formatter, its
    context is the one the last [setContextDir] of the sequence asked for
    and its flag the one the last [setAlwaysSpan] asked for; without such
    a call the field is the one the formatter started with. *)
Theorem fields_after_calls :
  forall (cs : list Call) (this : t),
    contextDir_ (after (performAll cs) this)
    = lastContextDir cs (contextDir_ this)
    /\ alwaysSpan_ (after (performAll cs) this)
       = lastAlwaysSpan cs (alwaysSpan_ this)
    /\ ((forall c, In c cs ->
           match c with
           | SetContextDir _ | SetAlwaysSpan _ => False
           | _ => True
           end) ->
        after (performAll cs) this = this).
Proof.
  intros cs this. rewrite after_performAll. cbn [contextDir_ alwaysSpan_].
  repeat match goal with |- _ /\ _ => split end; try reflexivity.
  revert this. induction cs as [|c cs IH]; intros this Hcs.
  - destruct this. reflexivity.
  - assert (Hc := Hcs c (or_introl eq_refl)).
    assert (IH' := IH this (fun c' Hin => Hcs c' (or_intror Hin))).
    destruct c; cbn [lastContextDir lastAlwaysSpan];
      solve [exact IH' | contradiction].
Qed.

(** X3. The context of a formatter is never NEUTRAL: it is LTR, RTL or
    unknown when the formatter is built, and stays so through every
    sequence of calls of public methods. *)
Theorem context_never_neutral :
  forall (c : DirInput) (a : Js.OptBool) (cs : list Call),
    let ctx := contextDir_ (after (performAll cs) (new c a)) in
    ctx <> Some NEUTRAL
    /\ (ctx = Some LTR \/ ctx = Some RTL \/ ctx = None)
    /\ result getContextDir (after (performAll cs) (new c a)) = ctx.
Proof.
  intros c a cs ctx. subst ctx. rewrite after_performAll.
  cbn [contextDir_ new].
  assert (Hn := lastContextDir_noNeutral cs (toDir c true) (toDir_noNeutral c)).
  repeat match goal with |- _ /\ _ => split end.
  - exact Hn.
  - destruct (lastContextDir cs (toDir c true)) as [[]|]; auto.
    contradiction Hn. reflexivity.
  - reflexivity.
Qed.

(** *** Edges and attributes *)

(** X4. [startEdge] and [endEdge] are "left" and "right", never the same:
    the start edge is "right" exactly in an RTL context, which is exactly
    when a NEUTRAL text gets the attribute value "rtl"; an unknown context
    has the edges of an LTR one. *)
Theorem edges_complementary :
  forall (this : t),
    let s := result startEdge this in
    let e := result endEdge this in
    ((s = "left" /\ e = "right") \/ (s = "right" /\ e = "left"))
    /\ s <> e
    /\ (s = "right" <-> contextDir_ this = Some RTL)
    /\ (e = "left" <-> contextDir_ this = Some RTL)
    /\ (s = "right" <-> result (knownDirAttrValue NEUTRAL) this = "rtl")
    /\ (contextDir_ this = None ->
        s = result startEdge (mk (Some LTR) (alwaysSpan_ this))
        /\ e = result endEdge (mk (Some LTR) (alwaysSpan_ this))).
Proof.
  intros [[[]|] a]; run; unfold LEFT, RIGHT;
    repeat match goal with |- _ /\ _ => split end;
    try (split; intros Hx; first [reflexivity | discriminate Hx]);
    try discriminate; auto; intros Hx; discriminate Hx.
Qed.

(** X5. The attribute of [knownDirAttr] and the wraps agree.  The
    attribute is not empty exactly when the direction is not NEUTRAL and
    differs from the context; it is then [dir="v"] for the value [v] of
    [knownDirAttrValue], the markup wrap puts that value on its [span] and
    the Unicode wrap embeds the text; when the attribute is empty the
    Unicode wrap emits the text without embedding. *)
Theorem attribute_agrees_with_wraps :
  forall (this : t) (dir : Dir) (html : Html) (str : string)
         (isHtml opt_dirReset : Js.OptBool),
    let attr := result (knownDirAttr dir) this in
    let value := result (knownDirAttrValue dir) this in
    let reset := fun s h =>
      result (dirResetIfNeeded_ s dir h
                (Js.Bool (effectiveDirReset opt_dirReset))) this in
    (attr <> EmptyString <-> dir <> NEUTRAL /\ Some dir <> contextDir_ this)
    /\ (attr <> EmptyString -> attr = "dir=" ++ dquote ++ value ++ dquote)
    /\ (attr <> EmptyString ->
        result (spanWrapWithKnownDir_ dir html opt_dirReset) this
        = SafeHtml.concat (SafeHtml.create "span" [("dir", Some value)] html)
            (reset (SafeHtml.unwrap html) (Js.Bool true)))
    /\ (attr <> EmptyString ->
        result (unicodeWrapWithKnownDir_ dir str isHtml opt_dirReset) this
        = embedding dir ++ str ++ PDF ++ reset str isHtml)
    /\ (attr = EmptyString ->
        result (unicodeWrapWithKnownDir_ dir str isHtml opt_dirReset) this
        = str ++ reset str isHtml).
Proof.
  intros [ctx a] dir html str isHtml opt_dirReset attr value reset.
  subst attr value reset. unfold result, evalState.
  rewrite run_spanWrapWithKnownDir_, run_unicodeWrapWithKnownDir_,
    !run_dirResetIfNeeded_.
  cbn [fst Js.truthy contextDir_ alwaysSpan_].
  unfold dirCondition. run.
  destruct dir, ctx as [[]|]; cbn;
    repeat match goal with |- _ /\ _ => split end;
    try (split; [intros _; split; discriminate | intros _; discriminate]);
    try (split; [intros Hx; contradiction Hx; reflexivity
                | intros [Hx Hy]; solve [contradiction Hx; reflexivity
                                        | contradiction Hy; reflexivity]]);
    try (intros Hx; solve [contradiction Hx; reflexivity | discriminate Hx]);
    try (intros _; rewrite ?orb_true_r, ?append_assoc; reflexivity).
Qed.

(** X6. A call that is given the direction does not estimate it: with
    [estimateDirection] replaced by any other function, the exit tests
    being kept, its result is the result under the estimator at hand.  A
    call without a direction, under the replaced estimator, is the call
    with the replacement's estimate under the estimator at hand; the
    markup wrap takes the estimate on the text of the value read as
    HTML. *)
Theorem known_direction_is_not_estimated :
  forall (this : t) (dir : Dir) (html : Html) (str : string)
         (isHtml opt_dirReset : Js.OptBool)
         (estimate : string -> Js.OptBool -> Dir),
    let E' := {| estimateDirection := estimate;
                 endsWithRtl := endsWithRtl (Estimator := E);
                 endsWithLtr := endsWithLtr (Estimator := E) |} in
    result (unicodeWrapWithKnownDir (E := E') (Some dir) str isHtml
              opt_dirReset) this
    = result (unicodeWrapWithKnownDir (E := E) (Some dir) str isHtml
                opt_dirReset) this
    /\ result (spanWrapSafeHtmlWithKnownDir (E := E') (Some dir) html
                 opt_dirReset) this
       = result (spanWrapSafeHtmlWithKnownDir (E := E) (Some dir) html
                   opt_dirReset) this
    /\ result (markAfterKnownDir (E := E') (Some dir) str isHtml) this
       = result (markAfterKnownDir (E := E) (Some dir) str isHtml) this
    /\ result (unicodeWrap (E := E') str isHtml opt_dirReset) this
       = result (unicodeWrapWithKnownDir (E := E)
                   (Some (estimate str isHtml)) str isHtml opt_dirReset) this
    /\ result (spanWrapSafeHtml (E := E') html opt_dirReset) this
       = result (spanWrapSafeHtmlWithKnownDir (E := E)
                   (Some (estimate (SafeHtml.unwrap html) (Js.Bool true)))
                   html opt_dirReset) this
    /\ result (markAfter (E := E') str isHtml) this
       = result (markAfterKnownDir (E := E)
                   (Some (estimate str isHtml)) str isHtml) this
    /\ result (dirAttr (E := E') str isHtml) this
       = result (knownDirAttr (estimate str isHtml)) this
    /\ result (dirAttrValue (E := E') str isHtml) this
       = result (knownDirAttrValue (estimate str isHtml)) this
    /\ result (unicodeWrap (E := E) str isHtml opt_dirReset) this
       = result (unicodeWrapWithKnownDir (E := E)
                   (Some (estimateDirection (Estimator := E) str isHtml))
                   str isHtml opt_dirReset) this
    /\ result (spanWrapSafeHtml (E := E) html opt_dirReset) this
       = result (spanWrapSafeHtmlWithKnownDir (E := E)
                   (Some (estimateDirection (Estimator := E)
                            (SafeHtml.unwrap html) (Js.Bool true)))
                   html opt_dirReset) this
    /\ result (markAfter (E := E) str isHtml) this
       = result (markAfterKnownDir (E := E)
                   (Some (estimateDirection (Estimator := E) str isHtml))
                   str isHtml) this.
Proof.
  intros this dir html str isHtml opt_dirReset estimate E'.
  unfold result, evalState, unicodeWrap, unicodeWrapWithKnownDir,
    spanWrapSafeHtml, spanWrapSafeHtmlWithKnownDir,
    markAfter, markAfterKnownDir, dirAttr, dirAttrValue.
  rewrite !(run_spanWrapWithKnownDir_ (E := E')),
    !(run_unicodeWrapWithKnownDir_ (E := E')),
    !(run_dirResetIfNeeded_ (E := E')),
    !(run_spanWrapWithKnownDir_ (E := E)),
    !(run_unicodeWrapWithKnownDir_ (E := E)),
    !(run_dirResetIfNeeded_ (E := E)).
  repeat match goal with |- _ /\ _ => split end; reflexivity.
Qed.

(** *** The trailing mark and the wraps *)

(** X7. What the mark-after operations return, and what the wraps append,
    is the empty string or the string [mark] returns, for every text and
    direction.  A direction is opposite to the context exactly when the
    context is LTR or RTL and the direction is not NEUTRAL and differs
    from it. *)
Theorem trailing_mark_is_mark :
  forall (this : t) (dir : Dir) (str : string)
         (isHtml opt_dirReset : Js.OptBool),
    let reset := result (dirResetIfNeeded_ str dir isHtml opt_dirReset) this in
    (reset = EmptyString \/ reset = result mark this)
    /\ (result (markAfterKnownDir (Some dir) str isHtml) this = EmptyString
        \/ result (markAfterKnownDir (Some dir) str isHtml) this
           = result mark this)
    /\ (result (markAfter str isHtml) this = EmptyString
        \/ result (markAfter str isHtml) this = result mark this)
    /\ (areDirectionalitiesOpposite_ (Some dir) (contextDir_ this) = true
        <-> (contextDir_ this = Some LTR \/ contextDir_ this = Some RTL)
            /\ dir <> NEUTRAL /\ Some dir <> contextDir_ this).
Proof.
  intros [ctx a] dir str isHtml opt_dirReset reset. subst reset.
  unfold result, evalState, markAfter, markAfterKnownDir.
  rewrite !run_dirResetIfNeeded_. run. unfold trailingMark.
  repeat match goal with |- _ /\ _ => split end.
  - destruct (resetNeededb _ _ _ _ _); [right | left];
      destruct ctx as [[]|]; reflexivity.
  - destruct (resetNeededb _ _ _ _ _); [right | left];
      destruct ctx as [[]|]; reflexivity.
  - destruct (resetNeededb _ _ _ _ _); [right | left];
      destruct ctx as [[]|]; reflexivity.
  - destruct dir, ctx as [[]|]; cbn; split;
      try discriminate; try (intros _; repeat split; auto; discriminate);
      intros [[Hx | Hx] [Hy Hz]];
      solve [discriminate Hx | contradiction Hy; reflexivity
            | contradiction Hz; reflexivity].
Qed.

(** X8. A text whose direction is opposite to the context is isolated
    whatever the text is, unless the reset is explicitly off: the Unicode
    wrap embeds it and appends the mark of the context, the markup wrap
    puts it in a [span] with its direction and appends the mark, and the
    mark-after operation returns the mark. *)
Theorem opposite_text_is_isolated :
  forall (this : t) (dir : Dir) (html : Html) (str : string)
         (isHtml opt_dirReset : Js.OptBool),
    areDirectionalitiesOpposite_ (Some dir) (contextDir_ this) = true ->
    opt_dirReset <> Js.Bool false ->
    result (unicodeWrapWithKnownDir_ dir str isHtml opt_dirReset) this
    = embedding dir ++ str ++ PDF ++ result mark this
    /\ result (spanWrapWithKnownDir_ dir html opt_dirReset) this
       = SafeHtml.concat
           (SafeHtml.create "span" [("dir", Some (dirAttributeValue dir))] html)
           (result mark this)
    /\ result (markAfterKnownDir (Some dir) str isHtml) this
       = result mark this
    /\ result (knownDirAttr dir) this
       = "dir=" ++ dquote ++ dirAttributeValue dir ++ dquote.
Proof.
  intros [ctx a] dir html str isHtml opt_dirReset Hopp Hreset.
  assert (Heff : effectiveDirReset opt_dirReset = true).
  { rewrite effectiveDirReset_cases.
    destruct opt_dirReset as [| |[]]; try reflexivity.
    contradiction Hreset. reflexivity. }
  unfold result, evalState, markAfterKnownDir.
  rewrite run_spanWrapWithKnownDir_, run_unicodeWrapWithKnownDir_,
    run_dirResetIfNeeded_.
  rewrite Heff. run. unfold trailingMark, resetNeededb, dirCondition.
  cbn [contextDir_] in Hopp. rewrite Hopp.
  destruct dir, ctx as [[]|]; try discriminate Hopp; cbn;
    rewrite ?orb_true_r, ?append_assoc; repeat split.
Qed.

(** X9. A text of the direction of the context is not wrapped: with the
    reset explicitly off the Unicode wrap returns it as it is; so it does
    with any reset argument when the text does not exit in the opposite
    direction, and then the mark-after operation returns the empty string;
    the attribute is empty. *)
Theorem same_direction_text_is_untouched :
  forall (this : t) (dir : Dir) (str : string)
         (isHtml opt_dirReset : Js.OptBool),
    contextDir_ this = Some dir ->
    result (unicodeWrapWithKnownDir (Some dir) str isHtml (Js.Bool false)) this
    = str
    /\ result (knownDirAttr dir) this = EmptyString
    /\ ((dir = LTR -> endsWithRtl str isHtml = false) ->
        (dir = RTL -> endsWithLtr str isHtml = false) ->
        result (unicodeWrapWithKnownDir (Some dir) str isHtml opt_dirReset) this
        = str
        /\ result (markAfterKnownDir (Some dir) str isHtml) this = EmptyString).
Proof.
  intros [ctx a] dir str isHtml opt_dirReset Hctx. cbn [contextDir_] in Hctx.
  subst ctx.
  unfold result, evalState, unicodeWrapWithKnownDir, markAfterKnownDir.
  rewrite !run_unicodeWrapWithKnownDir_, run_dirResetIfNeeded_. run.
  unfold trailingMark, resetNeededb, dirCondition.
  repeat match goal with |- _ /\ _ => split end.
  - destruct dir; cbn; apply append_nil_r.
  - destruct dir; reflexivity.
  - intros Hltr Hrtl.
    destruct dir; cbn;
      rewrite ?(Hltr eq_refl), ?(Hrtl eq_refl), ?andb_false_r;
      cbn; rewrite ?append_nil_r; split; reflexivity.
Qed.

(** X10. A text of NEUTRAL direction is never wrapped and has no
    attribute: the Unicode wrap returns the text followed by the trailing
    mark, which is the mark of the context exactly when the reset is on and
    the text exits in the direction opposite to the context; the markup
    wrap puts no direction on a [span] that [alwaysSpan_] forces. *)
Theorem neutral_text_is_not_wrapped :
  forall (this : t) (html : Html) (str : string)
         (isHtml opt_dirReset : Js.OptBool),
    let ctx := contextDir_ this in
    let exits :=
      (eq ctx (Some LTR) && endsWithRtl str isHtml)
      || (eq ctx (Some RTL) && endsWithLtr str isHtml) in
    result (knownDirAttr NEUTRAL) this = EmptyString
    /\ result (unicodeWrapWithKnownDir_ NEUTRAL str isHtml opt_dirReset) this
       = str ++ (if effectiveDirReset opt_dirReset && exits
                 then result mark this else EmptyString)
    /\ result (markAfterKnownDir (Some NEUTRAL) str isHtml) this
       = (if exits then result mark this else EmptyString)
    /\ (alwaysSpan_ this = false ->
        result (spanWrapWithKnownDir_ NEUTRAL html (Js.Bool false)) this
        = SafeHtml.concat html EmptyString)
    /\ (alwaysSpan_ this = true ->
        result (spanWrapWithKnownDir_ NEUTRAL html (Js.Bool false)) this
        = SafeHtml.concat (SafeHtml.create "span" [("dir", None)] html)
            EmptyString).
Proof.
  intros [ctx a] html str isHtml opt_dirReset ctx' exits. subst ctx' exits.
  unfold result, evalState, markAfterKnownDir.
  rewrite !run_spanWrapWithKnownDir_, run_unicodeWrapWithKnownDir_,
    run_dirResetIfNeeded_.
  run. unfold trailingMark, resetNeededb, dirCondition.
  repeat match goal with |- _ /\ _ => split end.
  - destruct ctx as [[]|]; reflexivity.
  - destruct ctx as [[]|], (effectiveDirReset opt_dirReset); cbn;
      try reflexivity;
      destruct (endsWithRtl str isHtml), (endsWithLtr str isHtml); reflexivity.
  - destruct ctx as [[]|]; cbn; try reflexivity;
      destruct (endsWithRtl str isHtml), (endsWithLtr str isHtml); reflexivity.
  - intros ->. reflexivity.
  - intros ->. reflexivity.
Qed.

(** *** The flag, the unknown context and the two directions *)


(** X12. In an unknown context no operation emits a mark and every text
    that is not NEUTRAL is wrapped with its direction: the Unicode wrap
    embeds it, the markup wrap puts it in a [span] with the attribute, and
    what follows is the empty string whatever the reset argument and the
    text.  The formatters built from [null], from 0 and from NEUTRAL have
    an unknown context. *)
Theorem unknown_context_wraps_without_mark :
  forall (a : bool) (dir : Dir) (html : Html) (str : string)
         (isHtml opt_dirReset opt_alwaysSpan : Js.OptBool),
    let this := mk None a in
    result (unicodeWrapWithKnownDir_ dir str isHtml opt_dirReset) this
    = match dir with
      | NEUTRAL => str
      | _ => embedding dir ++ str ++ PDF
      end
    /\ result (spanWrapWithKnownDir_ dir html opt_dirReset) this
       = SafeHtml.concat
           match dir with
           | NEUTRAL =>
               if a then SafeHtml.create "span" [("dir", None)] html else html
           | _ =>
               SafeHtml.create "span" [("dir", Some (dirAttributeValue dir))]
                 html
           end
           EmptyString
    /\ result (markAfterKnownDir (Some dir) str isHtml) this = EmptyString
    /\ result (markAfter str isHtml) this = EmptyString
    /\ result (knownDirAttrValue dir) this = dirAttributeValue dir
    /\ contextDir_ (new InNull opt_alwaysSpan) = None
    /\ contextDir_ (new (InNumber 0) opt_alwaysSpan) = None
    /\ contextDir_ (new (ofDir NEUTRAL) opt_alwaysSpan) = None.
Proof.
  intros a dir html str isHtml opt_dirReset opt_alwaysSpan this. subst this.
  unfold result, evalState, markAfter, markAfterKnownDir.
  rewrite run_spanWrapWithKnownDir_, run_unicodeWrapWithKnownDir_,
    !run_dirResetIfNeeded_.
  run. unfold trailingMark, resetNeededb, dirCondition, contextMark.
  cbn [contextDir_ alwaysSpan_].
  assert (Hopp : forall d, areDirectionalitiesOpposite_ (Some d) None = false)
    by (intros d; unfold areDirectionalitiesOpposite_;
        rewrite Z.mul_0_r; reflexivity).
  rewrite !Hopp. cbn. rewrite !andb_false_r.
  repeat match goal with |- _ /\ _ => split end; try reflexivity.
  - destruct dir; cbn; rewrite ?append_nil_r, ?append_assoc, ?append_nil_r;
      reflexivity.
  - destruct dir, a; reflexivity.
  - destruct dir; reflexivity.
Qed.

(** X13. The Unicode wrap, the mark-after operations and [mark] treat the
    two directions alike: with LTR and RTL exchanged in the context, in
    the direction of the text, in what the estimator answers and in the
    characters, they return the same string. *)
Theorem directions_are_treated_alike :
  forall (this : t) (dir : Dir) (ndir : NullableDir) (str : string)
         (isHtml opt_dirReset : Js.OptBool),
    result (dirResetIfNeeded_ (F := Mirror.format F) (E := Mirror.estimator E)
              str (Mirror.dir dir) isHtml opt_dirReset) (Mirror.formatter this)
    = result (dirResetIfNeeded_ str dir isHtml opt_dirReset) this
    /\ result (unicodeWrapWithKnownDir (F := Mirror.format F)
                 (E := Mirror.estimator E)
                 (Mirror.nullableDir ndir) str isHtml opt_dirReset)
         (Mirror.formatter this)
       = result (unicodeWrapWithKnownDir ndir str isHtml opt_dirReset) this
    /\ result (markAfterKnownDir (F := Mirror.format F)
                 (E := Mirror.estimator E)
                 (Mirror.nullableDir ndir) str isHtml) (Mirror.formatter this)
       = result (markAfterKnownDir ndir str isHtml) this
    /\ result (mark (F := Mirror.format F)) (Mirror.formatter this)
       = result mark this
    /\ areDirectionalitiesOpposite_ (Mirror.nullableDir ndir)
         (contextDir_ (Mirror.formatter this))
       = areDirectionalitiesOpposite_ ndir (contextDir_ this).
Proof.
  intros [ctx a] dir ndir str isHtml opt_dirReset.
  unfold result, evalState, unicodeWrapWithKnownDir, markAfterKnownDir.
  rewrite !run_unicodeWrapWithKnownDir_, !run_dirResetIfNeeded_.
  run. unfold trailingMark, resetNeededb, dirCondition, contextMark,
    Mirror.formatter, Mirror.nullableDir.
  cbn [contextDir_ alwaysSpan_ fst].
  repeat match goal with |- _ /\ _ => split end.
  - destruct dir, ctx as [[]|], (Js.truthy opt_dirReset); cbn;
      try reflexivity;
      destruct (endsWithRtl str isHtml), (endsWithLtr str isHtml); reflexivity.
  - destruct ndir as [d|]; cbn;
      [| destruct (estimateDirection str isHtml) as [] eqn:Hest; rename Hest into Hd];
      try destruct d;
      destruct ctx as [[]|], (effectiveDirReset opt_dirReset); cbn;
      try reflexivity;
      destruct (endsWithRtl str isHtml), (endsWithLtr str isHtml); reflexivity.
  - destruct ndir as [d|]; cbn;
      [| destruct (estimateDirection str isHtml) as [] eqn:Hest];
      try destruct d;
      destruct ctx as [[]|]; cbn;
      try reflexivity;
      destruct (endsWithRtl str isHtml), (endsWithLtr str isHtml); reflexivity.
  - destruct ctx as [[]|]; reflexivity.
  - destruct ndir as [[]|], ctx as [[]|]; reflexivity.
Qed.

End Methods.

Section Witnesses.

Import Standin.

(** An RTL text in an LTR context, the reset argument omitted. *)
Lemma opposite_text_is_isolated_witness :
  let this := new (ofDir LTR) Js.Undefined in
  areDirectionalitiesOpposite_ (Some RTL) (contextDir_ this) = true
  /\ Js.Undefined <> Js.Bool false
  /\ (result (unicodeWrapWithKnownDir_ RTL "SHALOM" Js.Undefined Js.Undefined)
        this
      = embedding RTL ++ "SHALOM" ++ PDF ++ result mark this
      /\ result (spanWrapWithKnownDir_ RTL "SHALOM" Js.Undefined) this
         = SafeHtml.concat
             (SafeHtml.create "span" [("dir", Some (dirAttributeValue RTL))]
                "SHALOM")
             (result mark this)
      /\ result (markAfterKnownDir (Some RTL) "SHALOM" Js.Undefined) this
         = result mark this
      /\ result (knownDirAttr RTL) this
         = "dir=" ++ dquote ++ dirAttributeValue RTL ++ dquote).
Proof.
  intros this.
  split; [reflexivity |].
  split; [discriminate |].
  apply (opposite_text_is_isolated this RTL "SHALOM" "SHALOM"
           Js.Undefined Js.Undefined);
    [reflexivity | discriminate].
Defined.

(** An LTR text that exits in LTR, in an LTR context. *)
Lemma same_direction_text_is_untouched_witness :
  let this := new (ofDir LTR) Js.Undefined in
  contextDir_ this = Some LTR
  /\ endsWithRtl "hello" Js.Undefined = false
  /\ result (unicodeWrapWithKnownDir (Some LTR) "hello" Js.Undefined
               (Js.Bool false)) this = "hello"
  /\ result (knownDirAttr LTR) this = EmptyString
  /\ result (unicodeWrapWithKnownDir (Some LTR) "hello" Js.Undefined
               Js.Undefined) this = "hello"
  /\ result (markAfterKnownDir (Some LTR) "hello" Js.Undefined) this
     = EmptyString.
Proof.
  intros this.
  split; [reflexivity |].
  split; [reflexivity |].
  destruct (same_direction_text_is_untouched this LTR "hello"
              Js.Undefined Js.Undefined eq_refl)
    as (Hoff & Hattr & Hexit).
  split; [exact Hoff |].
  split; [exact Hattr |].
  apply Hexit; [intros _; reflexivity | discriminate].
Defined.

End Witnesses.

End More.
